(** * Plastic pollution dashboard: row classification and aggregation

    Shallow embedding of [dashboard_Final_Script.py].  The script loads a
    table, checks its schema, tags the first row of every (country, year)
    group as the total row, and feeds a handful of grouped sums to the
    charts.  The table operations of the dataframe library are written out
    as list functions; the part of the script that binds and mutates
    dataframe objects is written a second time over an explicit object
    store, so that aliasing and in-place column assignment can be reasoned
    about. *)

From Stdlib Require Import String Ascii List ZArith QArith Qminmax Lia Bool.
From Stdlib Require Import Sorting.Sorted Sorting.Permutation.
Import ListNotations.

Local Open Scope string_scope.
Local Open Scope Z_scope.

(* ================================================================= *)
(** ** Data model *)

(** A numeric cell of a count column; [None] is NaN (a missing value).
    Counts are whole numbers of pieces, so float sums are exact. *)
Definition cell := option Z.

(** A cell of the precomputed ratio column. *)
Definition ratio := option Q.

(** One row of the source table, restricted to the 15 required columns. *)
Record Row := mkRow {
  country : string;
  year : Z;
  parent_company : option string;
  empty : cell;
  hdpe : cell;
  ldpe : cell;
  o : cell;
  pet : cell;
  pp : cell;
  ps : cell;
  pvc : cell;
  grand_total : cell;
  num_events : cell;
  volunteers : cell;
  grand_total_per_volunteer : ratio
}.

(** A row of [df] once the column [is_total_row] has been added. *)
Record TRow := mkTRow {
  base : Row;
  is_total_row : bool
}.

(** The table as read from the file: its column names and its rows.  A cell
    of a column that is absent from [columns] is never read, because the
    run stops at the schema check. *)
Record RawTable := mkRaw {
  columns : list string;
  records : list Row
}.

(** The sidebar selection. *)
Record Selection := mkSel {
  year_selected : Z;
  country_selected : string;
  parent_company_selected : string
}.

(* ================================================================= *)
(** ** Dataframe primitives *)

(** [Series.dropna()] *)
Fixpoint dropna {A : Type} (l : list (option A)) : list A :=
  match l with
  | [] => []
  | None :: l' => dropna l'
  | Some x :: l' => x :: dropna l'
  end.

(** [Series.unique()]: distinct values in order of first appearance. *)
Fixpoint unique {A : Type} (eqb : A -> A -> bool) (l : list A) : list A :=
  match l with
  | [] => []
  | x :: l' => x :: filter (fun y => negb (eqb x y)) (unique eqb l')
  end.

(** Stable sort: [x] is placed in front of the first element that does not
    have to come before it, so rows with equal keys keep their order. *)
Fixpoint insert {A : Type} (leb : A -> A -> bool) (x : A) (l : list A) : list A :=
  match l with
  | [] => [x]
  | y :: l' => if leb x y then x :: y :: l' else y :: insert leb x l'
  end.

Fixpoint sort_by {A : Type} (leb : A -> A -> bool) (l : list A) : list A :=
  match l with
  | [] => []
  | x :: l' => insert leb x (sort_by leb l')
  end.

(** [sum()] of a numeric column skips NaN. *)
Definition nan0 (c : cell) : Z :=
  match c with Some z => z | None => 0 end.

Definition qnan0 (c : ratio) : Q :=
  match c with Some q => q | None => 0%Q end.

Definition zsum (l : list Z) : Z := fold_right Z.add 0 l.

Definition qsum (l : list Q) : Q := fold_right Qplus 0%Q l.

(** Column access by name, [row[c]], for the count columns. *)
Definition getcol (c : string) (r : Row) : cell :=
  if String.eqb c "empty" then empty r
  else if String.eqb c "hdpe" then hdpe r
  else if String.eqb c "ldpe" then ldpe r
  else if String.eqb c "o" then o r
  else if String.eqb c "pet" then pet r
  else if String.eqb c "pp" then pp r
  else if String.eqb c "ps" then ps r
  else if String.eqb c "pvc" then pvc r
  else if String.eqb c "grand_total" then grand_total r
  else if String.eqb c "num_events" then num_events r
  else if String.eqb c "volunteers" then volunteers r
  else None.

(** A Series indexed by column name, and a lookup in it. *)
Definition Series := list (string * Z).

Fixpoint series_get (c : string) (s : Series) : Z :=
  match s with
  | [] => 0
  | (c', v) :: s' => if String.eqb c c' then v else series_get c s'
  end.

(** [frame[cols].sum()]: one sum per named column. *)
Definition sum_cols (cols : list string) (l : list TRow) : Series :=
  map (fun c => (c, zsum (map (fun r => nan0 (getcol c (base r))) l))) cols.

(* ================================================================= *)
(** ** Load and schema check (lines 33-43) *)

Definition required : list string :=
  [ "country"; "year"; "parent_company"; "empty"; "hdpe"; "ldpe"; "o"; "pet";
    "pp"; "ps"; "pvc"; "grand_total"; "num_events"; "volunteers";
    "grand_total_per_volunteer" ].

Definition mem (c : string) (cols : list string) : bool :=
  existsb (String.eqb c) cols.

(** [missing = [c for c in required if c not in df.columns]] *)
Definition missing (cols : list string) : list string :=
  filter (fun c => negb (mem c cols)) required.

(* ================================================================= *)
(** ** Row Classifier (lines 46-49) *)

Definition Key := (string * Z)%type.

Definition key (r : Row) : Key := (country r, year r).

Definition key_eqb (k1 k2 : Key) : bool :=
  String.eqb (fst k1) (fst k2) && (snd k1 =? snd k2).

(** Lexicographic order on (country, year); strings compare by code point. *)
Definition key_leb (k1 k2 : Key) : bool :=
  match String.compare (fst k1) (fst k2) with
  | Lt => true
  | Eq => snd k1 <=? snd k2
  | Gt => false
  end.

(** [df.sort_values(["country", "year"])]: a sort on several columns is a
    stable lexicographic sort. *)
Definition sort_values (l : list Row) : list Row :=
  sort_by (fun r1 r2 => key_leb (key r1) (key r2)) l.

(** [groupby(["country", "year"]).cumcount()]: for each row, the number of
    earlier rows of the table with the same key. *)
Fixpoint cumcount_from (seen : list Key) (l : list Row) : list nat :=
  match l with
  | [] => []
  | r :: l' =>
      List.length (filter (key_eqb (key r)) seen)
        :: cumcount_from (key r :: seen) l'
  end.

Definition cumcount (l : list Row) : list nat := cumcount_from [] l.

(** [df["is_total_row"] = ... cumcount() == 0] *)
Definition add_is_total_row (l : list Row) : list TRow :=
  map (fun p => mkTRow (fst p) (Nat.eqb (snd p) 0)) (combine l (cumcount l)).

(** The classified table [df] after lines 46-47. *)
Definition classify (l : list Row) : list TRow :=
  add_is_total_row (sort_values l).

(** [totals = df[df["is_total_row"]]] *)
Definition totals (df : list TRow) : list TRow := filter is_total_row df.

(** [companies = df[~df["is_total_row"]]] *)
Definition companies (df : list TRow) : list TRow :=
  filter (fun r => negb (is_total_row r)) df.

Definition in_group (k : Key) (r : Row) : bool := key_eqb k (key r).

(** The rows of one group in a classified table. *)
Definition group_of (k : Key) (df : list TRow) : list TRow :=
  filter (fun r => in_group k (base r)) df.

(** A group whose first row is the total row. *)
Definition tag_first (g : list Row) : list TRow :=
  match g with
  | [] => []
  | r :: rs => mkTRow r true :: map (fun x => mkTRow x false) rs
  end.

(* ================================================================= *)
(** ** Sidebar controls (lines 68-73) *)

Definition year_options (df : list TRow) : list Z :=
  sort_by Z.leb (unique Z.eqb (map (fun r => year (base r)) (totals df))).

Definition country_options (df : list TRow) : list string :=
  sort_by String.leb
    (unique String.eqb (map (fun r => country (base r)) (totals df))).

(** [["All"] + sorted(companies["parent_company"].dropna().unique())] *)
Definition parent_company_options (df : list TRow) : list string :=
  "All" :: sort_by String.leb
             (unique String.eqb
                (dropna (map (fun r => parent_company (base r)) (companies df)))).

(* ================================================================= *)
(** ** Filtered views (lines 75-78) *)

Definition year_is (y : Z) (r : TRow) : bool := year (base r) =? y.

Definition country_is (c : string) (r : TRow) : bool :=
  String.eqb (country (base r)) c.

(** [frame["parent_company"] == p]: a null cell equals no string. *)
Definition parent_is (p : string) (r : TRow) : bool :=
  match parent_company (base r) with
  | Some q => String.eqb q p
  | None => false
  end.

Definition totals_y (sel : Selection) (df : list TRow) : list TRow :=
  filter (year_is (year_selected sel)) (totals df).

Definition total_row (sel : Selection) (df : list TRow) : list TRow :=
  filter (country_is (country_selected sel)) (totals_y sel df).

Definition companies_y (sel : Selection) (df : list TRow) : list TRow :=
  filter (year_is (year_selected sel)) (companies df).

Definition companies_yc (sel : Selection) (df : list TRow) : list TRow :=
  filter (fun r => year_is (year_selected sel) r
                   && country_is (country_selected sel) r) (companies df).

(* ================================================================= *)
(** ** KPI section (lines 85-97) *)

Record KPI := mkKPI {
  total_plastic : cell;
  kpi_volunteers : cell;
  events : cell;
  per_vol : ratio
}.

(** The four scalars read with [.iloc[0]] from a row. *)
Definition kpi_of (r : TRow) : KPI :=
  mkKPI (grand_total (base r)) (volunteers (base r)) (num_events (base r))
        (grand_total_per_volunteer (base r)).

(** [None] is the warning branch, "No total row for ...". *)
Definition kpi_rows (tr : list TRow) : option KPI :=
  match tr with
  | [] => None
  | r :: _ => Some (kpi_of r)
  end.

Definition kpi (sel : Selection) (df : list TRow) : option KPI :=
  kpi_rows (total_row sel df).

(* ================================================================= *)
(** ** Plastic type composition (lines 152-162) *)

Definition plastics_cols : list string :=
  [ "hdpe"; "ldpe"; "o"; "pet"; "pp"; "ps"; "pvc" ].

Definition comp_for_comp (sel : Selection) (df : list TRow) : list TRow :=
  if String.eqb (parent_company_selected sel) "All"
  then companies_yc sel df
  else filter (parent_is (parent_company_selected sel)) (companies_yc sel df).

(** [None] when [comp_for_comp] is empty: no chart is drawn. *)
Definition comp_vals_rows (cfc : list TRow) : option Series :=
  match cfc with
  | [] => None
  | _ :: _ => Some (sum_cols plastics_cols cfc)
  end.

Definition comp_vals (sel : Selection) (df : list TRow) : option Series :=
  comp_vals_rows (comp_for_comp sel df).

(* ================================================================= *)
(** ** Trends (lines 182-195 and 216-222) *)

Definition recyclable : list string := [ "hdpe"; "ldpe"; "pet"; "pp" ].

Definition non_recyclable : list string := [ "ps"; "pvc"; "o" ].

Definition comp_country_all_years (sel : Selection) (df : list TRow)
  : list TRow :=
  filter (country_is (country_selected sel)) (companies df).

(** [frame.groupby("year")[cols].sum().reset_index()]: one row per distinct
    year, in ascending order of the year. *)
Definition groupby_year_sum (cols : list string) (l : list TRow)
  : list (Z * Series) :=
  map (fun y => (y, sum_cols cols (filter (year_is y) l)))
      (sort_by Z.leb (unique Z.eqb (map (fun r => year (base r)) l))).

(** [frame[cols].sum(axis=1)] for one row of the grouped frame. *)
Definition row_sum (cols : list string) (s : Series) : Z :=
  zsum (map (fun c => series_get c s) cols).

(** [frame[name] = ...]: a new column, computed row by row, is appended. *)
Definition add_column (name : string) (f : Series -> Z)
  (g : list (Z * Series)) : list (Z * Series) :=
  map (fun p => (fst p, (snd p ++ [(name, f (snd p))])%list)) g.

(** The frame [trend] with its columns "Recyclable" and "Non-Recyclable". *)
Definition trend_rows (ccay : list TRow) : option (list (Z * Series)) :=
  match ccay with
  | [] => None
  | _ :: _ =>
      Some (add_column "Non-Recyclable" (row_sum non_recyclable)
              (add_column "Recyclable" (row_sum recyclable)
                 (groupby_year_sum (recyclable ++ non_recyclable)%list ccay)))
  end.

Definition trend (sel : Selection) (df : list TRow)
  : option (list (Z * Series)) :=
  trend_rows (comp_country_all_years sel df).

Definition trend_types_rows (ccay : list TRow) : option (list (Z * Series)) :=
  match ccay with
  | [] => None
  | _ :: _ => Some (groupby_year_sum plastics_cols ccay)
  end.

Definition trend_types (sel : Selection) (df : list TRow)
  : option (list (Z * Series)) :=
  trend_types_rows (comp_country_all_years sel df).

(* ================================================================= *)
(** ** Top 10 parent companies (lines 238-245) *)

(** [frame.groupby("parent_company")["grand_total_per_volunteer"].sum()
    .reset_index()]: a null key forms no group; keys come out sorted. *)
Definition groupby_parent_sum (l : list TRow) : list (string * Q) :=
  map (fun p =>
         (p, qsum (map (fun r => qnan0 (grand_total_per_volunteer (base r)))
                       (filter (parent_is p) l))))
      (sort_by String.leb
         (unique String.eqb (dropna (map (fun r => parent_company (base r)) l)))).

(** Descending order of the summed ratio; equal sums keep their order. *)
Definition ratio_geb (a b : string * Q) : bool := Qle_bool (snd b) (snd a).

Definition top10_rows (cy : list TRow) : list (string * Q) :=
  firstn 10 (sort_by ratio_geb (groupby_parent_sum cy)).

Definition top10 (sel : Selection) (df : list TRow) : list (string * Q) :=
  top10_rows (companies_y sel df).

(* ================================================================= *)
(** ** World map data (lines 110-131) *)

Definition Hover := (string * Z * cell * cell * ratio)%type.

(** One tuple of [zip(country, year, grand_total, volunteers,
    grand_total_per_volunteer)]. *)
Definition hover_of (r : TRow) : Hover :=
  (country (base r), year (base r), grand_total (base r),
   volunteers (base r), grand_total_per_volunteer (base r)).

Definition is_empty {A : Type} (l : list A) : bool :=
  match l with [] => true | _ :: _ => false end.

(* ================================================================= *)
(** ** The script over an object store

    Every dataframe is an object of the store and every variable of the
    script holds a location.  Boolean indexing builds a new object; a
    column assignment changes the object in place; a plain assignment
    ([comp_for_comp = companies_yc]) shares the location. *)

Inductive Frame :=
| Raw (rows : list Row)
| Table (rows : list TRow) (custom_hover : option (list Hover))
| Grouped (rows : list (Z * Series))
| Ranking (rows : list (string * Q)).

Definition loc := nat.

Definition Store := list Frame.

Definition M (A : Type) : Type := Store -> A * Store.

Definition ret {A : Type} (a : A) : M A := fun h => (a, h).

Definition bind {A B : Type} (c : M A) (k : A -> M B) : M B :=
  fun h => let (a, h') := c h in k a h'.

Notation "x <- c ;; k" := (bind c (fun x => k))
  (at level 61, c at next level, right associativity).
Notation "c ;;; k" := (bind c (fun _ => k))
  (at level 61, right associativity).

Fixpoint update (l : loc) (f : Frame) (h : Store) : Store :=
  match h, l with
  | [], _ => []
  | _ :: h', O => f :: h'
  | g :: h', S l' => g :: update l' f h'
  end.

Definition alloc (f : Frame) : M loc := fun h => (List.length h, (h ++ [f])%list).

Definition deref (l : loc) : M Frame := fun h => (nth l h (Raw []), h).

Definition assign (l : loc) (f : Frame) : M unit := fun h => (tt, update l f h).

Definition raw_rows (f : Frame) : list Row :=
  match f with Raw r => r | _ => [] end.

Definition table_rows (f : Frame) : list TRow :=
  match f with Table r _ => r | _ => [] end.

Definition hover_col (f : Frame) : list Hover :=
  match f with Table _ (Some hv) => hv | _ => [] end.

Definition grouped_rows (f : Frame) : list (Z * Series) :=
  match f with Grouped r => r | _ => [] end.

Definition ranking_rows (f : Frame) : list (string * Q) :=
  match f with Ranking r => r | _ => [] end.

(** The cells of an added column that belong to the selected rows. *)
Definition mask_column {A : Type} (p : TRow -> bool) (r : list TRow)
  (col : list A) : list A :=
  map snd (filter (fun x => p (fst x)) (combine r col)).

Definition select (p : TRow -> bool) (f : Frame) : Frame :=
  match f with
  | Table r hv => Table (filter p r) (option_map (mask_column p r) hv)
  | other => other
  end.

(** [frame[mask]] *)
Definition bool_index (p : TRow -> bool) (l : loc) : M loc :=
  f <- deref l ;; alloc (select p f).

(** [frame["custom_hover"] = list(zip(...))] *)
Definition set_custom_hover (l : loc) : M unit :=
  f <- deref l ;;
  assign l (match f with
            | Table r _ => Table r (Some (map hover_of r))
            | other => other
            end).

(** [frame[name] = frame[cols].sum(axis=1)] *)
Definition set_column (l : loc) (name : string) (f : Series -> Z) : M unit :=
  g <- deref l ;;
  assign l (match g with
            | Grouped r => Grouped (add_column name f r)
            | other => other
            end).

(** The variables bound by the Row Classifier. *)
Record Env := mkEnv {
  v_df : loc;
  v_totals : loc;
  v_companies : loc
}.

(** Lines 46-49, starting from the location of the frame read from the
    file. *)
Definition classifier (d0 : loc) : M Env :=
  f0 <- deref d0 ;;
  d <- alloc (Raw (sort_values (raw_rows f0))) ;;
  f <- deref d ;;
  assign d (Table (add_is_total_row (raw_rows f)) None) ;;;
  t <- bool_index is_total_row d ;;
  c <- bool_index (fun r => negb (is_total_row r)) d ;;
  ret (mkEnv d t c).

(** The variables bound at lines 75-78. *)
Record Views := mkViews {
  v_totals_y : loc;
  v_total_row : loc;
  v_companies_y : loc;
  v_companies_yc : loc
}.

Definition views (sel : Selection) (e : Env) : M Views :=
  ty <- bool_index (year_is (year_selected sel)) (v_totals e) ;;
  tr <- bool_index (country_is (country_selected sel)) ty ;;
  cy <- bool_index (year_is (year_selected sel)) (v_companies e) ;;
  cyc <- bool_index (fun r => year_is (year_selected sel) r
                              && country_is (country_selected sel) r)
                    (v_companies e) ;;
  ret (mkViews ty tr cy cyc).

(** What a section hands to the charting library. *)
Inductive Output :=
| OutKPI (k : option KPI)
| OutMap (customdata : list Hover) (marker : bool)
| OutComposition (s : option Series)
| OutTrend (t : option (list (Z * Series)))
| OutTrendTypes (t : option (list (Z * Series)))
| OutTop10 (t : list (string * Q)).

Definition kpi_section (v : Views) : M Output :=
  f <- deref (v_total_row v) ;;
  ret (OutKPI (kpi_rows (table_rows f))).

Definition map_section (sel : Selection) (v : Views) : M Output :=
  set_custom_hover (v_totals_y v) ;;;
  f <- deref (v_totals_y v) ;;
  sel_t <- bool_index (country_is (country_selected sel)) (v_totals_y v) ;;
  s <- deref sel_t ;;
  ret (OutMap (hover_col f) (negb (is_empty (table_rows s)))).

Definition composition_section (sel : Selection) (v : Views) : M Output :=
  cfc <- (if String.eqb (parent_company_selected sel) "All"
          then ret (v_companies_yc v)
          else bool_index (parent_is (parent_company_selected sel))
                          (v_companies_yc v)) ;;
  f <- deref cfc ;;
  ret (OutComposition (comp_vals_rows (table_rows f))).

(** Line 185. *)
Definition country_view (sel : Selection) (e : Env) : M loc :=
  bool_index (country_is (country_selected sel)) (v_companies e).

Definition trend_section (ccay : loc) : M Output :=
  f <- deref ccay ;;
  if is_empty (table_rows f) then ret (OutTrend None)
  else
    t <- alloc (Grouped (groupby_year_sum (recyclable ++ non_recyclable)%list
                                          (table_rows f))) ;;
    set_column t "Recyclable" (row_sum recyclable) ;;;
    set_column t "Non-Recyclable" (row_sum non_recyclable) ;;;
    g <- deref t ;;
    ret (OutTrend (Some (grouped_rows g))).

Definition trend_types_section (ccay : loc) : M Output :=
  f <- deref ccay ;;
  if is_empty (table_rows f) then ret (OutTrendTypes None)
  else
    t <- alloc (Grouped (groupby_year_sum plastics_cols (table_rows f))) ;;
    g <- deref t ;;
    ret (OutTrendTypes (Some (grouped_rows g))).

Definition top10_section (v : Views) : M Output :=
  f <- deref (v_companies_y v) ;;
  t <- alloc (Ranking (top10_rows (table_rows f))) ;;
  g <- deref t ;;
  ret (OutTop10 (ranking_rows g)).

(** Lines 75-245 in the order of the script. *)
Definition dashboard (sel : Selection) (e : Env) : M (list Output) :=
  v <- views sel e ;;
  k <- kpi_section v ;;
  m <- map_section sel v ;;
  c <- composition_section sel v ;;
  ccay <- country_view sel e ;;
  t <- trend_section ccay ;;
  tt <- trend_types_section ccay ;;
  top <- top10_section v ;;
  ret [k; m; c; t; tt; top].

Inductive Run :=
| Stopped (missing_columns : list string)
| Rendered (outs : list Output).

(** The whole run: read, check the schema ([st.stop()] ends the run),
    classify, draw. *)
Definition script (raw : RawTable) (sel : Selection) : M Run :=
  d0 <- alloc (Raw (records raw)) ;;
  if is_empty (missing (columns raw))
  then
    e <- classifier d0 ;;
    outs <- dashboard sel e ;;
    ret (Rendered outs)
  else ret (Stopped (missing (columns raw))).

(** One query on its own: the views of the selection, then one section. *)
Inductive Op :=
| KPI_lookup
| World_map
| Composition
| Recyclable_trend
| Category_trend
| Top_companies.

Definition run_op (op : Op) (sel : Selection) (e : Env) : M Output :=
  v <- views sel e ;;
  match op with
  | KPI_lookup => kpi_section v
  | World_map => map_section sel v
  | Composition => composition_section sel v
  | Recyclable_trend => ccay <- country_view sel e ;; trend_section ccay
  | Category_trend => ccay <- country_view sel e ;; trend_types_section ccay
  | Top_companies => top10_section v
  end.

Fixpoint run_ops (calls : list (Op * Selection)) (e : Env)
  : M (list Output) :=
  match calls with
  | [] => ret []
  | (op, sel) :: calls' =>
      out <- run_op op sel e ;;
      outs <- run_ops calls' e ;;
      ret (out :: outs)
  end.

(** What each query returns, as a function of the classified table. *)
Definition query (op : Op) (sel : Selection) (df : list TRow) : Output :=
  match op with
  | KPI_lookup => OutKPI (kpi sel df)
  | World_map =>
      OutMap (map hover_of (totals_y sel df))
             (negb (is_empty (total_row sel df)))
  | Composition => OutComposition (comp_vals sel df)
  | Recyclable_trend => OutTrend (trend sel df)
  | Category_trend => OutTrendTypes (trend_types sel df)
  | Top_companies => OutTop10 (top10 sel df)
  end.

(** The store holds the classified table [df] and its two projections. *)
Definition holds_classified (df : list TRow) (e : Env) (h : Store) : Prop :=
  nth_error h (v_df e) = Some (Table df None)
  /\ nth_error h (v_totals e) = Some (Table (totals df) None)
  /\ nth_error h (v_companies e) = Some (Table (companies df) None).

(* ================================================================= *)
(** ** Vocabulary of the statements *)

(** The selection with another parent-company choice. *)
Definition with_parent (p : string) (sel : Selection) : Selection :=
  mkSel (year_selected sel) (country_selected sel) p.

(** The distinct non-null parent companies present in a set of rows. *)
Definition companies_present (l : list TRow) : list string :=
  unique String.eqb (dropna (map (fun r => parent_company (base r)) l)).

(** The quantity that the composition chart shows for one category; an
    empty selection draws nothing and so contributes nothing. *)
Definition composition_value (col : string) (sel : Selection)
  (df : list TRow) : Z :=
  match comp_vals sel df with
  | Some s => series_get col s
  | None => 0
  end.

Definition has_parent (r : TRow) : bool :=
  match parent_company (base r) with Some _ => true | None => false end.

(** Sample tables. *)
Definition sample_row (c : string) (y : Z) (p : option string) (n : Z)
  (q : Q) : Row :=
  mkRow c y p (Some 0) (Some n) (Some 0) (Some 0) (Some 0) (Some 0) (Some 0)
        (Some 0) (Some n) (Some 1) (Some 10) (Some q).

(** A company that appears in 2019 only. *)
Definition table_two_years : list Row :=
  [ sample_row "A" 2019 (Some "Grand Total") 7 (7 # 10);
    sample_row "A" 2019 (Some "Acme") 7 (7 # 10);
    sample_row "A" 2020 (Some "Grand Total") 3 (3 # 10) ].

(** A company row without a parent company. *)
Definition table_null_parent : list Row :=
  [ sample_row "A" 2020 (Some "Grand Total") 7 (7 # 10);
    sample_row "A" 2020 None 5 (5 # 10);
    sample_row "A" 2020 (Some "Acme") 2 (2 # 10) ].

(** A company whose name is the sentinel of the selector. *)
Definition table_company_All : list Row :=
  [ sample_row "A" 2020 (Some "Grand Total") 3 (3 # 10);
    sample_row "A" 2020 (Some "All") 1 (1 # 10);
    sample_row "A" 2020 (Some "B") 2 (2 # 10) ].

Definition sel_A_2020 : Selection := mkSel 2020 "A" "All".

(** A file that lacks the column "pvc". *)
Definition table_without_pvc : RawTable :=
  mkRaw [ "country"; "year"; "parent_company"; "empty"; "hdpe"; "ldpe"; "o";
          "pet"; "pp"; "ps"; "grand_total"; "num_events"; "volunteers";
          "grand_total_per_volunteer" ]
        table_null_parent.


(** A file with exactly the required columns. *)
Definition table_complete : RawTable := mkRaw required table_null_parent.

(** The store after the classifier has run on a sample table. *)
Definition sample_store : Store := [Raw table_null_parent].

Definition sample_env : Env := fst (classifier 0%nat sample_store).

Definition sample_classified : Store := snd (classifier 0%nat sample_store).

(** The six sections in the order of the script. *)
Definition all_ops : list Op :=
  [ KPI_lookup; World_map; Composition; Recyclable_trend; Category_trend;
    Top_companies ].

(* ================================================================= *)
(** * Properties *)

(** ** The stable sort *)

Section StableSort.
Context {A : Type} (leb : A -> A -> bool).

Lemma insert_perm (x : A) (l : list A) : Permutation (insert leb x l) (x :: l).
Proof.
  induction l as [|y l IH]; simpl.
  - apply Permutation_refl.
  - destruct (leb x y).
    + apply Permutation_refl.
    + eapply Permutation_trans; [apply perm_skip, IH | apply perm_swap].
Qed.

Lemma sort_by_perm (l : list A) : Permutation (sort_by leb l) l.
Proof.
  induction l as [|x l IH]; simpl.
  - apply Permutation_refl.
  - eapply Permutation_trans; [apply insert_perm | apply perm_skip, IH].
Qed.

Lemma sort_by_In (l : list A) (x : A) : In x (sort_by leb l) <-> In x l.
Proof.
  split; apply Permutation_in;
    [apply sort_by_perm | apply Permutation_sym, sort_by_perm].
Qed.

Lemma sort_by_length (l : list A) : List.length (sort_by leb l) = List.length l.
Proof. apply Permutation_length, sort_by_perm. Qed.

(** Rows that [p] selects are never moved past one another. *)
Section Stable.
Variable p : A -> bool.
Hypothesis p_block : forall a b, p a = true -> p b = true -> leb a b = true.

Lemma insert_filter (x : A) (l : list A) :
  filter p (insert leb x l) = filter p (x :: l).
Proof.
  induction l as [|y l IH]; simpl; [reflexivity|].
  destruct (leb x y) eqn:Hxy; simpl; [reflexivity|].
  simpl in IH. rewrite IH.
  destruct (p x) eqn:Hx; [|reflexivity].
  destruct (p y) eqn:Hy; [|reflexivity].
  rewrite (p_block x y Hx Hy) in Hxy. discriminate.
Qed.

Lemma sort_by_filter (l : list A) : filter p (sort_by leb l) = filter p l.
Proof.
  induction l as [|x l IH]; simpl; [reflexivity|].
  rewrite insert_filter. simpl. now rewrite IH.
Qed.
End Stable.

(** With a total order the result is sorted. *)
Section Sorted.
Hypothesis leb_total : forall a b, leb a b = false -> leb b a = true.

Lemma insert_sorted (x : A) (l : list A) :
  Sorted (fun a b => leb a b = true) l ->
  Sorted (fun a b => leb a b = true) (insert leb x l).
Proof.
  induction 1 as [|y l Hs IH Hd]; simpl.
  - repeat constructor.
  - destruct (leb x y) eqn:Hxy.
    + repeat constructor; assumption.
    + constructor; [exact IH|].
      destruct l as [|z l]; simpl.
      * constructor. now apply leb_total.
      * destruct (leb x z); constructor.
        -- now apply leb_total.
        -- now inversion Hd.
Qed.

Lemma sort_by_sorted (l : list A) :
  Sorted (fun a b => leb a b = true) (sort_by leb l).
Proof.
  induction l as [|x l IH]; simpl; [constructor|].
  now apply insert_sorted.
Qed.
End Sorted.
End StableSort.

(** ** Keys *)

Lemma key_eqb_eq (k1 k2 : Key) : key_eqb k1 k2 = true <-> k1 = k2.
Proof.
  destruct k1 as [c1 y1], k2 as [c2 y2]. unfold key_eqb; simpl.
  rewrite andb_true_iff, String.eqb_eq, Z.eqb_eq.
  split; [intros [-> ->]; reflexivity | intros [= -> ->]; auto].
Qed.

Lemma key_eqb_refl (k : Key) : key_eqb k k = true.
Proof. now apply key_eqb_eq. Qed.

Lemma key_leb_refl (k : Key) : key_leb k k = true.
Proof.
  unfold key_leb.
  pose proof (String.compare_antisym (fst k) (fst k)) as H.
  destruct (String.compare (fst k) (fst k)); try discriminate H.
  apply Z.leb_refl.
Qed.

Lemma sort_values_group (k : Key) (l : list Row) :
  filter (in_group k) (sort_values l) = filter (in_group k) l.
Proof.
  apply sort_by_filter. intros a b Ha Hb.
  apply key_eqb_eq in Ha, Hb. rewrite <- Ha, <- Hb. apply key_leb_refl.
Qed.

(** ** The classifier *)

Lemma no_earlier_row (k : Key) (seen : list Key) :
  Nat.eqb (List.length (filter (key_eqb k) seen)) 0
  = negb (existsb (key_eqb k) seen).
Proof.
  induction seen as [|x seen IH]; simpl; [reflexivity|].
  destruct (key_eqb k x); simpl; [reflexivity | exact IH].
Qed.

Lemma cumcount_from_group (k : Key) (l : list Row) : forall seen,
  group_of k (map (fun p => mkTRow (fst p) (Nat.eqb (snd p) 0))
                  (combine l (cumcount_from seen l)))
  = if existsb (key_eqb k) seen
    then map (fun x => mkTRow x false) (filter (in_group k) l)
    else tag_first (filter (in_group k) l).
Proof.
  induction l as [|r l IH]; intros seen.
  - simpl. now destruct (existsb (key_eqb k) seen).
  - unfold group_of in *. cbn [cumcount_from combine map filter base fst snd].
    rewrite IH. cbn [existsb].
    assert (Hg : in_group k r = key_eqb k (key r)) by reflexivity.
    rewrite !Hg.
    destruct (key_eqb k (key r)) eqn:Hk; cbn [orb]; [|reflexivity].
    apply key_eqb_eq in Hk. subst k. rewrite no_earlier_row.
    now destruct (existsb (key_eqb (key r)) seen).
Qed.

Lemma add_is_total_row_group (k : Key) (l : list Row) :
  group_of k (add_is_total_row l) = tag_first (filter (in_group k) l).
Proof. unfold add_is_total_row, cumcount. now rewrite cumcount_from_group. Qed.

Lemma classify_group (k : Key) (raw : list Row) :
  group_of k (classify raw) = tag_first (filter (in_group k) raw).
Proof. unfold classify. now rewrite add_is_total_row_group, sort_values_group. Qed.

Lemma tag_first_totals (g : list Row) :
  filter is_total_row (tag_first g) = map (fun r => mkTRow r true) (firstn 1 g).
Proof.
  destruct g as [|r rs]; simpl; [reflexivity|]. f_equal.
  induction rs as [|x rs IH]; simpl; auto.
Qed.

Lemma tag_first_companies (g : list Row) :
  filter (fun r => negb (is_total_row r)) (tag_first g)
  = map (fun r => mkTRow r false) (tl g).
Proof.
  destruct g as [|r rs]; simpl; [reflexivity|].
  induction rs as [|x rs IH]; simpl; [reflexivity|]. now rewrite IH.
Qed.

Lemma cumcount_from_length (l : list Row) : forall seen,
  List.length (cumcount_from seen l) = List.length l.
Proof. induction l as [|r l IH]; intros seen; simpl; auto. Qed.

Lemma add_is_total_row_base (l : list Row) : map base (add_is_total_row l) = l.
Proof.
  unfold add_is_total_row, cumcount. generalize (@nil Key).
  induction l as [|r l IH]; intros seen; simpl; [reflexivity|].
  now rewrite IH.
Qed.

Lemma classify_perm (raw : list Row) : Permutation (map base (classify raw)) raw.
Proof. unfold classify. rewrite add_is_total_row_base. apply sort_by_perm. Qed.

Lemma filter_filter {A : Type} (p q : A -> bool) (l : list A) :
  filter p (filter q l) = filter (fun x => q x && p x) l.
Proof.
  induction l as [|x l IH]; simpl; [reflexivity|].
  destruct (q x); simpl; [destruct (p x)|]; now rewrite IH.
Qed.

Lemma filter_comm {A : Type} (p q : A -> bool) (l : list A) :
  filter p (filter q l) = filter q (filter p l).
Proof.
  rewrite !filter_filter. apply filter_ext. intros x. apply andb_comm.
Qed.

Lemma group_of_totals (k : Key) (raw : list Row) :
  group_of k (totals (classify raw))
  = map (fun r => mkTRow r true) (firstn 1 (filter (in_group k) raw)).
Proof.
  unfold group_of, totals. rewrite filter_comm.
  fold (group_of k (classify raw)).
  now rewrite classify_group, tag_first_totals.
Qed.

Lemma group_of_companies (k : Key) (raw : list Row) :
  group_of k (companies (classify raw))
  = map (fun r => mkTRow r false) (tl (filter (in_group k) raw)).
Proof.
  unfold group_of, companies. rewrite filter_comm.
  fold (group_of k (classify raw)).
  now rewrite classify_group, tag_first_companies.
Qed.

Lemma group_nonempty (k : Key) (raw : list Row) :
  (exists r, In r raw /\ key r = k) ->
  exists r rs, filter (in_group k) raw = r :: rs.
Proof.
  intros [r [Hin Hk]].
  destruct (filter (in_group k) raw) as [|x xs] eqn:Hf; [|eauto].
  assert (H : In r (filter (in_group k) raw)).
  { apply filter_In. split; [exact Hin|]. unfold in_group. now apply key_eqb_eq. }
  rewrite Hf in H. destruct H.
Qed.

(** C1. Every (country, year) group with at least one record has exactly
    one row tagged as total row; all its other rows are company rows. *)
Theorem C1_one_total_row_per_group (raw : list Row) (k : Key) :
  (exists r, In r raw /\ key r = k) ->
  List.length (group_of k (totals (classify raw))) = 1%nat
  /\ List.length (group_of k (companies (classify raw)))
     = (List.length (filter (in_group k) raw) - 1)%nat
  /\ Permutation (map base (classify raw)) raw.
Proof.
  intros Hne. destruct (group_nonempty k raw Hne) as [r [rs Hg]].
  rewrite group_of_totals, group_of_companies, Hg. simpl.
  rewrite length_map, Nat.sub_0_r.
  repeat split; auto using classify_perm.
Qed.


(** ** Schema check *)

Lemma mem_In (c : string) (cols : list string) : mem c cols = true <-> In c cols.
Proof.
  unfold mem. rewrite existsb_exists. split.
  - intros [x [Hx He]]. apply String.eqb_eq in He. now subst.
  - intros H. exists c. split; [exact H | apply String.eqb_refl].
Qed.

Lemma missing_spec (cols : list string) (c : string) :
  In c (missing cols) <-> In c required /\ ~ In c cols.
Proof.
  unfold missing. rewrite filter_In, negb_true_iff.
  split; intros [H1 H2]; split; try exact H1.
  - intros H. apply mem_In in H. congruence.
  - destruct (mem c cols) eqn:Hm; [|reflexivity].
    apply mem_In in Hm. now elim H2.
Qed.

Lemma script_rendered (raw : RawTable) (sel : Selection) (h : Store) :
  is_empty (missing (columns raw)) = true ->
  exists outs, fst (script raw sel h) = Rendered outs.
Proof.
  intros He. unfold script, bind, alloc. rewrite He.
  destruct (classifier _ _) as [e h1].
  destruct (dashboard sel e h1) as [outs h2]. now exists outs.
Qed.

Lemma script_stopped (raw : RawTable) (sel : Selection) (h : Store) :
  is_empty (missing (columns raw)) = false ->
  script raw sel h
  = (Stopped (missing (columns raw)), (h ++ [Raw (records raw)])%list).
Proof. intros He. unfold script, bind, alloc. now rewrite He. Qed.

(** C3. The run stops with the schema error exactly when a required column
    is absent; the error names exactly the absent required columns, and
    the store then holds nothing but the frame that was read. *)
Theorem C3_schema_error (raw : RawTable) (sel : Selection) (h : Store) :
  ((exists m, fst (script raw sel h) = Stopped m)
   <-> (exists c, In c required /\ ~ In c (columns raw)))
  /\ (forall m, fst (script raw sel h) = Stopped m ->
        m = missing (columns raw)
        /\ (forall c, In c m <-> In c required /\ ~ In c (columns raw))
        /\ snd (script raw sel h) = (h ++ [Raw (records raw)])%list)
  /\ List.length required = 15%nat.
Proof.
  assert (Hstop : forall m, fst (script raw sel h) = Stopped m ->
                            is_empty (missing (columns raw)) = false).
  { intros m Hm. destruct (is_empty (missing (columns raw))) eqn:He; auto.
    destruct (script_rendered raw sel h He) as [outs Ho]. congruence. }
  split; [split|split].
  - intros [m Hm]. apply Hstop in Hm.
    destruct (missing (columns raw)) as [|c cs] eqn:Hmiss; [discriminate|].
    exists c. apply missing_spec. rewrite Hmiss. now left.
  - intros [c Hc]. apply missing_spec in Hc.
    exists (missing (columns raw)). rewrite script_stopped; [reflexivity|].
    destruct (missing (columns raw)); [destruct Hc | reflexivity].
  - intros m Hm. pose proof (Hstop m Hm) as He.
    rewrite script_stopped in Hm |- * by exact He. simpl in *.
    injection Hm as <-.
    split; [reflexivity|]. split; [|reflexivity].
    intros c. apply missing_spec.
  - reflexivity.
Qed.

(** ** KPI lookup *)

Lemma total_row_group (sel : Selection) (df : list TRow) :
  total_row sel df
  = group_of (country_selected sel, year_selected sel) (totals df).
Proof.
  unfold total_row, totals_y, group_of. rewrite filter_filter.
  apply filter_ext. intros r.
  unfold year_is, country_is, in_group, key_eqb, key. simpl.
  rewrite andb_comm. f_equal; [apply String.eqb_sym | apply Z.eqb_sym].
Qed.

(** C4. When a total row matches the selection, the KPI lookup returns the
    four scalars of that row; when none matches it returns the absent-data
    signal.  The lookup is a total function: nothing is raised. *)
Theorem C4_kpi_lookup (raw : list Row) (sel : Selection) :
  (forall r, In r (totals (classify raw)) ->
             country (base r) = country_selected sel ->
             year (base r) = year_selected sel ->
             kpi sel (classify raw)
             = Some (mkKPI (grand_total (base r)) (volunteers (base r))
                           (num_events (base r))
                           (grand_total_per_volunteer (base r))))
  /\ ((forall r, In r (totals (classify raw)) ->
                 ~ (country (base r) = country_selected sel
                    /\ year (base r) = year_selected sel)) ->
      kpi sel (classify raw) = None).
Proof.
  unfold kpi. rewrite total_row_group, group_of_totals.
  set (k := (country_selected sel, year_selected sel)).
  split.
  - intros r Hr Hc Hy.
    assert (Hin : In r (group_of k (totals (classify raw)))).
    { apply filter_In. split; [exact Hr|].
      unfold in_group. apply key_eqb_eq. unfold key, k. now rewrite Hc, Hy. }
    rewrite group_of_totals in Hin.
    destruct (filter (in_group k) raw) as [|r0 rs]; simpl in *; [destruct Hin|].
    destruct Hin as [<-|[]]. reflexivity.
  - intros Hnone.
    destruct (filter (in_group k) raw) as [|r0 rs] eqn:Hf; [reflexivity|].
    exfalso.
    assert (Hin : In (mkTRow r0 true) (group_of k (totals (classify raw)))).
    { rewrite group_of_totals, Hf. now left. }
    apply filter_In in Hin. destruct Hin as [Hin Hk].
    apply (Hnone _ Hin). unfold in_group in Hk. apply key_eqb_eq in Hk.
    unfold k, key in Hk. simpl in Hk. injection Hk as -> ->. auto.
Qed.

(** ** Distinct values *)

Lemma dropna_In {A : Type} (l : list (option A)) (x : A) :
  In x (dropna l) <-> In (Some x) l.
Proof.
  induction l as [|[y|] l IH]; simpl.
  - tauto.
  - rewrite IH. split; intros [H|H]; auto; left; congruence.
  - rewrite IH. split; [auto | intros [H|H]; [discriminate | exact H]].
Qed.

Section Unique.
Context {A : Type} (eqb : A -> A -> bool).
Hypothesis eqb_eq : forall x y, eqb x y = true <-> x = y.

Lemma unique_In (l : list A) (x : A) : In x (unique eqb l) <-> In x l.
Proof.
  induction l as [|y l IH]; simpl; [tauto|].
  rewrite filter_In, IH, negb_true_iff. split.
  - intros [H|[H _]]; auto.
  - intros [H|H]; [now left|].
    destruct (eqb y x) eqn:E; [left; now apply eqb_eq | right; auto].
Qed.

Lemma unique_NoDup (l : list A) : NoDup (unique eqb l).
Proof.
  induction l as [|y l IH]; simpl; constructor.
  - rewrite filter_In, negb_true_iff. intros [_ H].
    assert (eqb y y = true) by now apply eqb_eq. congruence.
  - now apply NoDup_filter.
Qed.

Lemma unique_length (l : list A) :
  (List.length (unique eqb l) <= List.length l)%nat.
Proof.
  induction l as [|y l IH]; simpl; [lia|].
  pose proof (filter_length_le (fun z => negb (eqb y z)) (unique eqb l)).
  lia.
Qed.
End Unique.

(** ** Trends *)


(** ** Top 10 *)

Lemma ratio_geb_total (a b : string * Q) :
  ratio_geb a b = false -> ratio_geb b a = true.
Proof.
  unfold ratio_geb. intros H. apply Qle_bool_iff.
  apply Qlt_le_weak, Qnot_le_lt. intros Hle.
  apply Qle_bool_iff in Hle. congruence.
Qed.

Lemma StronglySorted_firstn {A : Type} (R : A -> A -> Prop) (l : list A) :
  StronglySorted R l -> forall n, StronglySorted R (firstn n l).
Proof.
  induction 1 as [|x l Hs IH Hall]; intros [|n]; simpl; try constructor.
  - apply IH.
  - rewrite Forall_forall in *. intros y Hy. apply Hall.
    rewrite <- (firstn_skipn n l). apply in_or_app. now left.
Qed.

Lemma groupby_parent_sum_length (l : list TRow) :
  List.length (groupby_parent_sum l) = List.length (companies_present l).
Proof.
  unfold groupby_parent_sum. now rewrite length_map, sort_by_length.
Qed.

(** C7. The ranking has at most 10 rows, never more rows than there are
    distinct parent companies among the company rows of the year, and its
    sums decrease from top to bottom. *)
Theorem C7_top10_bounded_and_sorted (sel : Selection) (df : list TRow) :
  (List.length (top10 sel df) <= 10)%nat
  /\ (List.length (top10 sel df)
      <= List.length (companies_present (companies_y sel df)))%nat
  /\ StronglySorted (fun a b => (snd b <= snd a)%Q) (top10 sel df).
Proof.
  unfold top10, top10_rows. split; [apply firstn_le_length|]. split.
  - rewrite length_firstn, sort_by_length, groupby_parent_sum_length. lia.
  - apply StronglySorted_firstn.
    assert (Hs : Sorted (fun a b => ratio_geb a b = true)
                   (sort_by ratio_geb (groupby_parent_sum (companies_y sel df))))
      by (apply sort_by_sorted, ratio_geb_total).
    apply Sorted_StronglySorted in Hs.
    + eapply StronglySorted_ind with (P := StronglySorted _); [| |exact Hs].
      * constructor.
      * intros a l _ IH Hall. constructor; [exact IH|].
        eapply Forall_impl; [|exact Hall].
        intros b Hb. now apply Qle_bool_iff.
    + intros a b c Hab Hbc. unfold ratio_geb in *.
      apply Qle_bool_iff in Hab, Hbc. apply Qle_bool_iff.
      eapply Qle_trans; eassumption.
Qed.

Lemma dropna_has_parent (l : list TRow) :
  dropna (map (fun r => parent_company (base r)) (filter has_parent l))
  = dropna (map (fun r => parent_company (base r)) l).
Proof.
  induction l as [|r l IH]; simpl; [reflexivity|].
  unfold has_parent at 1. destruct (parent_company (base r)) eqn:E; simpl.
  - rewrite E. now rewrite IH.
  - exact IH.
Qed.

Lemma parent_is_has_parent (p : string) (l : list TRow) :
  filter (parent_is p) (filter has_parent l) = filter (parent_is p) l.
Proof.
  rewrite filter_filter. apply filter_ext. intros r.
  unfold has_parent, parent_is. now destruct (parent_company (base r)).
Qed.

Lemma groupby_parent_sum_has_parent (l : list TRow) :
  groupby_parent_sum (filter has_parent l) = groupby_parent_sum l.
Proof.
  unfold groupby_parent_sum. rewrite dropna_has_parent.
  apply map_ext. intros p. now rewrite parent_is_has_parent.
Qed.

(** C10. Company rows without a parent company take no part in the
    ranking: deleting them changes nothing, every ranked name is the
    (non-null) parent company of some company row of the year, and its sum
    runs over the rows of that parent company only. *)
Theorem C10_null_parent_excluded (sel : Selection) (df : list TRow) :
  top10 sel df = top10_rows (filter has_parent (companies_y sel df))
  /\ forall p s, In (p, s) (top10 sel df) ->
       (exists r, In r (companies_y sel df)
                  /\ parent_company (base r) = Some p)
       /\ s = qsum (map (fun r => qnan0 (grand_total_per_volunteer (base r)))
                        (filter (parent_is p) (companies_y sel df)))
       /\ forall r, In r (filter (parent_is p) (companies_y sel df)) ->
                    parent_company (base r) <> None.
Proof.
  split.
  - unfold top10, top10_rows. now rewrite groupby_parent_sum_has_parent.
  - intros p s Hin. unfold top10, top10_rows in Hin.
    assert (Hin' : In (p, s) (sort_by ratio_geb
                                (groupby_parent_sum (companies_y sel df)))).
    { rewrite <- (firstn_skipn 10 (sort_by _ _)). apply in_or_app. now left. }
    apply sort_by_In in Hin'. unfold groupby_parent_sum in Hin'.
    apply in_map_iff in Hin'. destruct Hin' as [q [Heq Hq]].
    injection Heq as -> <-.
    rewrite sort_by_In, (unique_In _ String.eqb_eq), dropna_In, in_map_iff
      in Hq.
    destruct Hq as [r [Hr Hin']].
    split; [exists r; auto|]. split; [reflexivity|].
    intros r' Hr'. apply filter_In in Hr'. destruct Hr' as [_ Hp].
    unfold parent_is in Hp. now destruct (parent_company (base r')).
Qed.

(** ** Parent-company selector *)

(** C8 as stated fails: "Acme" is offered although no company row of the
    selected year 2020 belongs to it. *)
Lemma C8_counterexample :
  ~ (In "Acme" (parent_company_options (classify table_two_years))
     <-> "Acme" = "All"
         \/ exists r, In r (companies_y sel_A_2020 (classify table_two_years))
                      /\ parent_company (base r) = Some "Acme").
Proof.
  intros [H _].
  destruct H as [H|[r [H _]]].
  - vm_compute. tauto.
  - discriminate H.
  - vm_compute in H. exact H.
Qed.

(** C8 (amended). The selector offers exactly "All" and the distinct
    non-null parent companies of the company rows of the whole table,
    whatever their year. *)
Theorem C8_parent_company_options (df : list TRow) (x : string) :
  In x (parent_company_options df)
  <-> x = "All"
      \/ exists r, In r (companies df) /\ parent_company (base r) = Some x.
Proof.
  unfold parent_company_options. simpl.
  rewrite sort_by_In, (unique_In _ String.eqb_eq), dropna_In, in_map_iff.
  split; (intros [H|H]; [left; now symmetry|right]);
    destruct H as [r [H1 H2]]; exists r; auto.
Qed.

(** ** Composition *)



Section Partition.
Variable f : TRow -> Z.



End Partition.


(** A company that is literally called "All" is counted twice: its own
    selection is the sentinel and shows every company. *)
Remark composition_company_named_All :
  composition_value "hdpe" (with_parent "All" sel_A_2020)
                    (classify table_company_All) = 3
  /\ zsum (map (fun p => composition_value "hdpe" (with_parent p sel_A_2020)
                                           (classify table_company_All))
               (companies_present
                  (companies_yc sel_A_2020 (classify table_company_All)))) = 5.
Proof. split; reflexivity. Qed.


(** ** The object store *)

Local Open Scope list_scope.
Local Open Scope nat_scope.

Lemma deref_old (h ext : Store) (l : loc) (f : Frame) :
  nth_error h l = Some f -> deref l (h ++ ext) = (f, (h ++ ext)%list).
Proof.
  intros H. unfold deref. f_equal.
  assert (Hl : (l < List.length h)%nat) by (apply nth_error_Some; congruence).
  rewrite app_nth1 by exact Hl. now apply nth_error_nth.
Qed.

Lemma deref_new (h ext : Store) (k : nat) :
  deref (List.length h + k) (h ++ ext) = (nth k ext (Raw []), (h ++ ext)%list).
Proof.
  unfold deref. f_equal. rewrite app_nth2 by lia. f_equal. lia.
Qed.

Lemma alloc_ext (h ext : Store) (f : Frame) :
  alloc f (h ++ ext)
  = ((List.length h + List.length ext)%nat, (h ++ (ext ++ [f]))%list).
Proof. unfold alloc. now rewrite length_app, app_assoc. Qed.

Lemma update_new (h ext : Store) (k : nat) (f : Frame) :
  update (List.length h + k) f (h ++ ext) = (h ++ update k f ext)%list.
Proof. induction h as [|g h IH]; simpl; [reflexivity | now rewrite IH]. Qed.

Lemma assign_new (h ext : Store) (k : nat) (f : Frame) :
  assign (List.length h + k) f (h ++ ext) = (tt, (h ++ update k f ext)%list).
Proof. unfold assign. now rewrite update_new. Qed.

Lemma holds_classified_ext (df : list TRow) (e : Env) (h ext : Store) :
  holds_classified df e h -> holds_classified df e (h ++ ext).
Proof.
  intros (H1 & H2 & H3).
  repeat split; rewrite nth_error_app1;
    try assumption; apply nth_error_Some; congruence.
Qed.

Lemma mask_column_hover (p : TRow -> bool) (r : list TRow) :
  mask_column p r (map hover_of r) = map hover_of (filter p r).
Proof.
  unfold mask_column. induction r as [|x r IH]; simpl; [reflexivity|].
  destruct (p x); simpl; now rewrite IH.
Qed.

(** One step of symbolic execution on a store of the shape [h ++ ext]. *)
Ltac store_step :=
  first [ rewrite deref_new
        | rewrite alloc_ext
        | rewrite assign_new
        | erewrite deref_old by eassumption ];
  cbn [nth update List.length app Nat.add select table_rows hover_col
       grouped_rows ranking_rows raw_rows option_map fst snd is_empty
       v_df v_totals v_companies
       v_totals_y v_total_row v_companies_y v_companies_yc].

Ltac store_run := repeat store_step.

Ltac unfold_script :=
  unfold run_op, dashboard, classifier, views, kpi_section, map_section,
    composition_section, country_view, trend_section, trend_types_section,
    top10_section, bool_index, set_custom_hover, set_column, bind, ret;
  cbv beta.

Lemma classifier_run (raw : list Row) (h : Store) (d0 : loc) :
  nth_error h d0 = Some (Raw raw) ->
  exists e ext,
    classifier d0 h = (e, h ++ ext)
    /\ holds_classified (classify raw) e (h ++ ext).
Proof.
  intros H0.
  cut (exists e ext, classifier d0 (h ++ []) = (e, h ++ ext)
                     /\ holds_classified (classify raw) e (h ++ ext)).
  { now rewrite app_nil_r. }
  unfold_script. store_run. do 2 eexists. split; [reflexivity|].
  unfold holds_classified; cbn [v_df v_totals v_companies].
  repeat split; rewrite nth_error_app2 by lia;
    match goal with
    | |- nth_error _ ?n = _ =>
        first [ replace n with 0 by lia
              | replace n with 1 by lia
              | replace n with 2 by lia ]
    end; reflexivity.
Qed.

Lemma run_op_spec (df : list TRow) (e : Env) (h : Store) (op : Op)
  (sel : Selection) :
  holds_classified df e h ->
  exists ext, run_op op sel e h = (query op sel df, h ++ ext).
Proof.
  intros (H1 & H2 & H3).
  cut (exists ext, run_op op sel e (h ++ []) = (query op sel df, h ++ ext)).
  { now rewrite app_nil_r. }
  destruct op; unfold_script;
    unfold query, kpi, comp_vals, comp_for_comp, trend, trend_types, top10,
      comp_country_all_years, total_row, totals_y, companies_y, companies_yc.
  - store_run. eexists. reflexivity.
  - store_run. rewrite mask_column_hover. eexists. reflexivity.
  - destruct (String.eqb (parent_company_selected sel) "All");
      store_run; eexists; reflexivity.
  - store_run.
    destruct (filter (country_is (country_selected sel)) (companies df));
      cbn [is_empty]; store_run; eexists; reflexivity.
  - store_run.
    destruct (filter (country_is (country_selected sel)) (companies df));
      cbn [is_empty]; store_run; eexists; reflexivity.
  - store_run. eexists. reflexivity.
Qed.

Lemma run_ops_spec (df : list TRow) (e : Env) (calls : list (Op * Selection)) :
  forall h, holds_classified df e h ->
  exists ext,
    run_ops calls e h
    = (map (fun c => query (fst c) (snd c) df) calls, h ++ ext).
Proof.
  induction calls as [|[op sel] calls IH]; intros h Hh; simpl.
  - exists []. unfold ret. now rewrite app_nil_r.
  - destruct (run_op_spec df e h op sel Hh) as [ext1 E1].
    destruct (IH (h ++ ext1) (holds_classified_ext df e h ext1 Hh)) as [ext2 E2].
    exists (ext1 ++ ext2). unfold bind, ret. rewrite E1, E2.
    now rewrite app_assoc.
Qed.

Lemma dashboard_spec (df : list TRow) (e : Env) (h : Store) (sel : Selection) :
  holds_classified df e h ->
  exists ext,
    dashboard sel e h
    = (map (fun op => query op sel df) all_ops, h ++ ext).
Proof.
  intros (H1 & H2 & H3).
  cut (exists ext,
         dashboard sel e (h ++ [])
         = (map (fun op => query op sel df) all_ops, h ++ ext)).
  { now rewrite app_nil_r. }
  unfold_script; unfold all_ops; cbn [map];
    unfold query, kpi, comp_vals, comp_for_comp, trend, trend_types, top10,
      comp_country_all_years, total_row, totals_y, companies_y, companies_yc.
  store_run. rewrite mask_column_hover.
  destruct (String.eqb (parent_company_selected sel) "All"); store_run;
    destruct (filter (country_is (country_selected sel)) (companies df));
    cbn [is_empty]; store_run; eexists; reflexivity.
Qed.

(** C9. Each query returns a value that depends on the classified table
    and the selection only, and running queries, in any order and with any
    selections, only adds objects to the store: the classified table and
    its two projections stay as they were. *)
Theorem C9_queries_leave_table_unchanged (df : list TRow) (e : Env)
  (h : Store) :
  holds_classified df e h ->
  (forall calls : list (Op * Selection),
      fst (run_ops calls e h) = map (fun c => query (fst c) (snd c) df) calls
      /\ (exists ext, snd (run_ops calls e h) = h ++ ext)
      /\ holds_classified df e (snd (run_ops calls e h)))
  /\ (forall sel : Selection,
      fst (dashboard sel e h) = map (fun op => query op sel df) all_ops
      /\ (exists ext, snd (dashboard sel e h) = h ++ ext)
      /\ holds_classified df e (snd (dashboard sel e h))).
Proof.
  intros Hh. split.
  - intros calls. destruct (run_ops_spec df e calls h Hh) as [ext E].
    rewrite E. cbn [fst snd]. split; [reflexivity|].
    split; [now exists ext | now apply holds_classified_ext].
  - intros sel. destruct (dashboard_spec df e h sel Hh) as [ext E].
    rewrite E. cbn [fst snd]. split; [reflexivity|].
    split; [now exists ext | now apply holds_classified_ext].
Qed.

(** ** The theorems at sample tables *)

Local Open Scope Z_scope.

Lemma C1_witness :
  (exists r, In r table_null_parent /\ key r = ("A"%string, 2020))
  /\ List.length
       (group_of ("A"%string, 2020) (totals (classify table_null_parent)))
     = 1%nat.
Proof.
  assert (H : exists r, In r table_null_parent /\ key r = ("A"%string, 2020)).
  { eexists. split; [left; reflexivity | reflexivity]. }
  split; [exact H|].
  exact (proj1 (C1_one_total_row_per_group table_null_parent _ H)).
Defined.


Lemma C3_witness :
  [ "pvc"%string ] = missing (columns table_without_pvc)
  /\ snd (script table_without_pvc sel_A_2020 [])
     = [ Raw (records table_without_pvc) ].
Proof.
  destruct (proj1 (proj2 (C3_schema_error table_without_pvc sel_A_2020 []))
              [ "pvc"%string ] eq_refl) as (H1 & _ & H3).
  split; [exact H1 | exact H3].
Defined.

Lemma C4_witness :
  kpi sel_A_2020 (classify table_null_parent)
  = Some (mkKPI (Some 7) (Some 10) (Some 1) (Some (7 # 10))).
Proof.
  apply (proj1 (C4_kpi_lookup table_null_parent sel_A_2020)
           (mkTRow (sample_row "A" 2020 (Some "Grand Total"%string) 7 (7 # 10))
                   true)).
  - left. reflexivity.
  - reflexivity.
  - reflexivity.
Defined.


Lemma C9_witness :
  holds_classified (classify table_null_parent) sample_env sample_classified
  /\ forall calls : list (Op * Selection),
       fst (run_ops calls sample_env sample_classified)
       = map (fun c => query (fst c) (snd c) (classify table_null_parent)) calls.
Proof.
  assert (H : holds_classified (classify table_null_parent) sample_env
                               sample_classified).
  { repeat split. }
  split; [exact H|].
  intros calls.
  exact (proj1 (proj1 (C9_queries_leave_table_unchanged _ _ _ H) calls)).
Defined.

Lemma C10_witness :
  exists r, In r (companies_y sel_A_2020 (classify table_null_parent))
            /\ parent_company (base r) = Some "Acme"%string.
Proof.
  apply (proj2 (C10_null_parent_excluded sel_A_2020 (classify table_null_parent))
           "Acme"%string (qsum [2 # 10]%Q)).
  left. reflexivity.
Defined.

(* ================================================================= *)
(** * Further properties of the script *)

(** ** The sorted table and the group numbering (lines 46-49) *)

Lemma key_leb_total (a b : Key) : key_leb a b = false -> key_leb b a = true.
Proof.
  unfold key_leb. rewrite (String.compare_antisym (fst b) (fst a)).
  destruct (String.compare (fst a) (fst b)); simpl; intros H.
  - apply Z.leb_gt in H. apply Z.leb_le. lia.
  - discriminate H.
  - reflexivity.
Qed.

(** The classified table is the input table in ascending order of
    (country, year): the same rows, each key at most the next one. *)
Theorem sorted_table (raw : list Row) :
  map base (classify raw) = sort_values raw
  /\ Sorted (fun r1 r2 => key_leb (key r1) (key r2) = true) (sort_values raw)
  /\ Permutation (sort_values raw) raw.
Proof.
  split; [apply add_is_total_row_base|]. split.
  - unfold sort_values. apply sort_by_sorted.
    intros a b. apply key_leb_total.
  - apply sort_by_perm.
Qed.

Lemma cumcount_from_numbers (k : Key) (l : list Row) : forall seen,
  map snd (filter (fun p => in_group k (fst p))
                  (combine l (cumcount_from seen l)))
  = seq (List.length (filter (key_eqb k) seen))
        (List.length (filter (in_group k) l)).
Proof.
  induction l as [|r l IH]; intros seen; [reflexivity|].
  cbn [cumcount_from combine filter fst].
  assert (Hg : in_group k r = key_eqb k (key r)) by reflexivity.
  destruct (in_group k r) eqn:Hk.
  - cbn [map snd List.length seq]. rewrite (IH (key r :: seen)).
    cbn [filter]. rewrite <- Hg. cbn [List.length].
    symmetry in Hg. apply key_eqb_eq in Hg. now subst k.
  - rewrite (IH (key r :: seen)). cbn [filter]. now rewrite <- Hg.
Qed.

(** [cumcount] numbers the rows of every group 0, 1, 2, ... in the order
    of the table, whether or not the table is sorted. *)
Theorem cumcount_numbers_each_group (k : Key) (l : list Row) :
  map snd (filter (fun p => in_group k (fst p)) (combine l (cumcount l)))
  = seq 0 (List.length (filter (in_group k) l)).
Proof. unfold cumcount. now rewrite cumcount_from_numbers. Qed.

Lemma at_most_one_NoDup {A B : Type} (f : A -> B) (eqb : B -> B -> bool)
  (l : list A) :
  (forall x y, eqb x y = true <-> x = y) ->
  (forall k, (List.length (filter (fun a => eqb k (f a)) l) <= 1)%nat) ->
  NoDup (map f l).
Proof.
  intros Heq. induction l as [|a l IH]; intros Hone; simpl; constructor.
  - intros Hin. apply in_map_iff in Hin. destruct Hin as [a' [Ha' Hin]].
    specialize (Hone (f a)). simpl in Hone.
    assert (E : eqb (f a) (f a) = true) by now apply Heq.
    rewrite E in Hone. simpl in Hone.
    assert (Hin' : In a' (filter (fun x => eqb (f a) (f x)) l)).
    { apply filter_In. split; [exact Hin|]. apply Heq. now symmetry. }
    destruct (filter (fun x => eqb (f a) (f x)) l); [destruct Hin'|].
    simpl in Hone. lia.
  - apply IH. intros k. specialize (Hone k). simpl in Hone.
    destruct (eqb k (f a)); simpl in Hone; lia.
Qed.

Lemma totals_keys_NoDup (raw : list Row) :
  NoDup (map (fun r => key (base r)) (totals (classify raw))).
Proof.
  apply (at_most_one_NoDup _ key_eqb); [apply key_eqb_eq|].
  intros k. fold (in_group k).
  change (filter (fun a => key_eqb k (key (base a))) (totals (classify raw)))
    with (group_of k (totals (classify raw))).
  rewrite group_of_totals, length_map, length_firstn. lia.
Qed.

Lemma classify_In (raw : list Row) (r : TRow) :
  In r (classify raw) -> In (base r) raw.
Proof.
  intros H. apply (Permutation_in _ (classify_perm raw)).
  apply in_map_iff. now exists r.
Qed.

Lemma totals_keys_In (raw : list Row) (k : Key) :
  In k (map (fun r => key (base r)) (totals (classify raw)))
  <-> In k (map key raw).
Proof.
  rewrite !in_map_iff. split.
  - intros [r [Hk Hr]]. exists (base r). split; [exact Hk|].
    apply classify_In. unfold totals in Hr. now apply filter_In in Hr.
  - intros [r [Hk Hr]].
    destruct (group_nonempty k raw) as [r0 [rs Hg]]; [now exists r|].
    assert (Hin : In (mkTRow r0 true) (group_of k (totals (classify raw)))).
    { rewrite group_of_totals, Hg. now left. }
    apply filter_In in Hin. destruct Hin as [Hin Hk0].
    exists (mkTRow r0 true). split; [|exact Hin].
    unfold in_group in Hk0. apply key_eqb_eq in Hk0. now symmetry.
Qed.

(** The total rows carry every (country, year) of the input exactly once. *)
Theorem totals_one_per_key (raw : list Row) :
  NoDup (map (fun r => key (base r)) (totals (classify raw)))
  /\ forall k, In k (map (fun r => key (base r)) (totals (classify raw)))
               <-> exists r, In r raw /\ key r = k.
Proof.
  split; [apply totals_keys_NoDup|].
  intros k. rewrite totals_keys_In, in_map_iff.
  split; intros [r [H1 H2]]; exists r; auto.
Qed.

Lemma filter_partition_perm {A : Type} (p : A -> bool) (l : list A) :
  Permutation (filter p l ++ filter (fun x => negb (p x)) l) l.
Proof.
  induction l as [|x l IH]; simpl; [constructor|].
  destruct (p x); simpl.
  - now constructor.
  - apply Permutation_sym, Permutation_cons_app, Permutation_sym, IH.
Qed.

(** Classification loses and duplicates nothing: the total rows and the
    company rows together are the rows of the input. *)
Theorem totals_and_companies_partition (raw : list Row) :
  Permutation (map base (totals (classify raw) ++ companies (classify raw)))
              raw
  /\ (List.length (totals (classify raw))
      + List.length (companies (classify raw)) = List.length raw)%nat.
Proof.
  assert (P : Permutation
                (map base (totals (classify raw) ++ companies (classify raw)))
                raw).
  { eapply Permutation_trans; [|apply classify_perm].
    apply Permutation_map, filter_partition_perm. }
  split; [exact P|].
  apply Permutation_length in P.
  now rewrite length_map, length_app in P.
Qed.

(** ** Sidebar options (lines 68-73) *)

Lemma Sorted_impl {A : Type} (R R' : A -> A -> Prop) (l : list A) :
  (forall a b, R a b -> R' a b) -> Sorted R l -> Sorted R' l.
Proof.
  intros HR. induction 1 as [|a l Hs IH Hd]; constructor; [exact IH|].
  destruct Hd; constructor. now apply HR.
Qed.

Lemma Zleb_total (a b : Z) : (a <=? b) = false -> (b <=? a) = true.
Proof. intros H. apply Z.leb_gt in H. apply Z.leb_le. lia. Qed.

Lemma String_leb_total (a b : string) :
  String.leb a b = false -> String.leb b a = true.
Proof. destruct (String.leb_total a b) as [H|H]; [congruence | auto]. Qed.

Lemma sort_unique_Z (l : list Z) :
  Sorted Z.le (sort_by Z.leb (unique Z.eqb l))
  /\ NoDup (sort_by Z.leb (unique Z.eqb l))
  /\ forall y, In y (sort_by Z.leb (unique Z.eqb l)) <-> In y l.
Proof.
  split; [|split].
  - eapply Sorted_impl; [|apply sort_by_sorted, Zleb_total].
    intros a b H. now apply Z.leb_le.
  - eapply Permutation_NoDup;
      [apply Permutation_sym, sort_by_perm | apply unique_NoDup, Z.eqb_eq].
  - intros y. now rewrite sort_by_In, (unique_In _ Z.eqb_eq).
Qed.

Lemma sort_unique_string (l : list string) :
  Sorted (fun a b => String.leb a b = true)
         (sort_by String.leb (unique String.eqb l))
  /\ NoDup (sort_by String.leb (unique String.eqb l))
  /\ forall y, In y (sort_by String.leb (unique String.eqb l)) <-> In y l.
Proof.
  split; [|split].
  - apply sort_by_sorted, String_leb_total.
  - eapply Permutation_NoDup;
      [apply Permutation_sym, sort_by_perm | apply unique_NoDup, String.eqb_eq].
  - intros y. now rewrite sort_by_In, (unique_In _ String.eqb_eq).
Qed.

Lemma totals_have_every_key (raw : list Row) (r : Row) :
  In r raw ->
  exists t, In t (totals (classify raw)) /\ key (base t) = key r.
Proof.
  intros Hr.
  assert (H : In (key r) (map (fun t => key (base t)) (totals (classify raw)))).
  { apply totals_keys_In, in_map_iff. now exists r. }
  apply in_map_iff in H. destruct H as [t [Hk Ht]]. now exists t.
Qed.

Lemma totals_In_raw (raw : list Row) (t : TRow) :
  In t (totals (classify raw)) -> In (base t) raw.
Proof. intros H. apply classify_In. now apply filter_In in H. Qed.

(** The year selector offers the years of the input table, each once and
    in ascending order. *)
Theorem year_options_are_the_years (raw : list Row) :
  Sorted Z.le (year_options (classify raw))
  /\ NoDup (year_options (classify raw))
  /\ forall y, In y (year_options (classify raw))
               <-> exists r, In r raw /\ year r = y.
Proof.
  unfold year_options.
  destruct (sort_unique_Z (map (fun r => year (base r))
                               (totals (classify raw)))) as (H1 & H2 & H3).
  split; [exact H1|]. split; [exact H2|].
  intros y. rewrite H3, in_map_iff. split.
  - intros [t [Hy Ht]]. exists (base t). split; [now apply totals_In_raw|exact Hy].
  - intros [r [Hr Hy]]. destruct (totals_have_every_key raw r Hr) as [t [Ht Hk]].
    exists t. split; [|exact Ht]. injection Hk as _ Hk. congruence.
Qed.

(** The country selector offers the countries of the input table, each
    once and in code-point order. *)
Theorem country_options_are_the_countries (raw : list Row) :
  Sorted (fun a b => String.leb a b = true) (country_options (classify raw))
  /\ NoDup (country_options (classify raw))
  /\ forall c, In c (country_options (classify raw))
               <-> exists r, In r raw /\ country r = c.
Proof.
  unfold country_options.
  destruct (sort_unique_string (map (fun r => country (base r))
                                    (totals (classify raw)))) as (H1 & H2 & H3).
  split; [exact H1|]. split; [exact H2|].
  intros c. rewrite H3, in_map_iff. split.
  - intros [t [Hc Ht]]. exists (base t). split; [now apply totals_In_raw|exact Hc].
  - intros [r [Hr Hc]]. destruct (totals_have_every_key raw r Hr) as [t [Ht Hk]].
    exists t. split; [|exact Ht]. injection Hk as Hk _. congruence.
Qed.

(** The parent-company selector starts with "All"; the names after it are
    sorted and none is repeated. *)
Theorem parent_company_options_shape (df : list TRow) :
  exists names,
    parent_company_options df = "All"%string :: names
    /\ Sorted (fun a b => String.leb a b = true) names
    /\ NoDup names.
Proof.
  unfold parent_company_options. eexists. split; [reflexivity|].
  destruct (sort_unique_string
              (dropna (map (fun r => parent_company (base r)) (companies df))))
    as (H1 & H2 & _).
  split; assumption.
Qed.

(** ** KPI section and composition on the input table *)

Lemma companies_yc_group (sel : Selection) (df : list TRow) :
  companies_yc sel df
  = group_of (country_selected sel, year_selected sel) (companies df).
Proof.
  unfold companies_yc, group_of. apply filter_ext. intros r.
  unfold year_is, country_is, in_group, key_eqb, key. simpl.
  rewrite andb_comm. f_equal; [apply String.eqb_sym | apply Z.eqb_sym].
Qed.

(** The KPI values are those of the first input row with the selected
    country and year; the warning is shown exactly when there is none. *)
Theorem kpi_reads_first_row_of_group (raw : list Row) (sel : Selection) :
  kpi sel (classify raw)
  = match filter (in_group (country_selected sel, year_selected sel)) raw with
    | [] => None
    | r :: _ => Some (mkKPI (grand_total r) (volunteers r) (num_events r)
                            (grand_total_per_volunteer r))
    end.
Proof.
  unfold kpi. rewrite total_row_group, group_of_totals.
  now destruct (filter _ raw).
Qed.

(** The company rows of a selection are the input rows of the group after
    its first one, in load order; a group of one row draws no composition
    chart, whatever company is selected. *)
Theorem composition_needs_company_rows (raw : list Row) (sel : Selection) :
  companies_yc sel (classify raw)
  = map (fun r => mkTRow r false)
        (tl (filter (in_group (country_selected sel, year_selected sel)) raw))
  /\ (comp_vals (with_parent "All" sel) (classify raw) = None
      <-> (List.length
             (filter (in_group (country_selected sel, year_selected sel)) raw)
           <= 1)%nat)
  /\ ((List.length
         (filter (in_group (country_selected sel, year_selected sel)) raw)
       <= 1)%nat ->
      forall p, comp_vals (with_parent p sel) (classify raw) = None).
Proof.
  assert (E : forall p, companies_yc (with_parent p sel) (classify raw)
                        = map (fun r => mkTRow r false)
                            (tl (filter (in_group (country_selected sel,
                                                   year_selected sel)) raw))).
  { intros p. rewrite companies_yc_group. apply group_of_companies. }
  split; [|split].
  - rewrite companies_yc_group. apply group_of_companies.
  - unfold comp_vals, comp_for_comp. cbn [parent_company_selected with_parent].
    cbn [String.eqb Ascii.eqb Bool.eqb andb]. rewrite E.
    destruct (filter _ raw) as [|r [|r' rs]]; simpl; split;
      intros H; try reflexivity; try lia; discriminate.
  - intros Hlen p. unfold comp_vals, comp_for_comp. rewrite E.
    destruct (filter _ raw) as [|r [|r' rs]]; simpl in *; try lia;
      now destruct (String.eqb _ _).
Qed.

(** A company without rows in the selected country and year draws no
    composition chart, and a company with rows draws one. *)
Theorem composition_of_absent_company (sel : Selection) (df : list TRow)
  (p : string) :
  p <> "All"%string ->
  (comp_vals (with_parent p sel) df = None
   <-> ~ In p (companies_present (companies_yc sel df))).
Proof.
  intros Hp. unfold comp_vals, comp_for_comp.
  cbn [parent_company_selected with_parent].
  destruct (String.eqb p "All") eqn:E; [apply String.eqb_eq in E; tauto|].
  change (companies_yc (with_parent p sel) df) with (companies_yc sel df).
  unfold companies_present.
  rewrite (unique_In _ String.eqb_eq), dropna_In, in_map_iff.
  destruct (filter (parent_is p) (companies_yc sel df)) as [|r l] eqn:F;
    simpl; split; intros H; try reflexivity; try discriminate.
  - intros [r [Hr Hin]].
    assert (Hf : In r (filter (parent_is p) (companies_yc sel df))).
    { apply filter_In. split; [exact Hin|]. unfold parent_is. rewrite Hr.
      apply String.eqb_refl. }
    rewrite F in Hf. destruct Hf.
  - exfalso. apply H.
    assert (Hf : In r (filter (parent_is p) (companies_yc sel df)))
      by (rewrite F; now left).
    apply filter_In in Hf. destruct Hf as [Hin Hpr]. exists r. split; [|exact Hin].
    unfold parent_is in Hpr. destruct (parent_company (base r)); [|discriminate].
    apply String.eqb_eq in Hpr. now subst.
Qed.

(** ** World map (lines 110-131) *)

Lemma distinct_images_filter {X Y : Type} (keep : X -> bool) (img : X -> Y)
  (rows : list X) (Hnd : NoDup (map img rows)) :
  NoDup (map img (filter keep rows)).
Proof.
  revert Hnd. induction rows as [|x rows IH]; simpl; intros Hnd.
  - constructor.
  - apply NoDup_cons_iff in Hnd. destruct Hnd as [Hx Hrest].
    destruct (keep x); simpl; [|now apply IH].
    apply NoDup_cons_iff. split; [|now apply IH].
    intros Hin. apply Hx. apply in_map_iff in Hin.
    destruct Hin as [y [Hy Hin]]. apply filter_In in Hin.
    apply in_map_iff. exists y. tauto.
Qed.

(** The map shows one location for every country that has a row in the
    selected year, no country twice, and marks the selected country
    exactly when the input has a row for it in that year. *)
Theorem map_locations (raw : list Row) (sel : Selection) :
  NoDup (map (fun r => country (base r)) (totals_y sel (classify raw)))
  /\ (forall c,
        In c (map (fun r => country (base r)) (totals_y sel (classify raw)))
        <-> exists r, In r raw /\ country r = c /\ year r = year_selected sel)
  /\ (is_empty (total_row sel (classify raw)) = false
      <-> exists r, In r raw
                    /\ key r = (country_selected sel, year_selected sel)).
Proof.
  split; [|split].
  - apply (NoDup_map_inv (fun c => (c, year_selected sel))).
    rewrite map_map.
    rewrite (map_ext_in _ (fun r => key (base r))).
    + unfold totals_y. apply distinct_images_filter, totals_keys_NoDup.
    + intros r Hr. apply filter_In in Hr. destruct Hr as [_ Hy].
      unfold year_is in Hy. apply Z.eqb_eq in Hy. unfold key. now rewrite Hy.
  - intros c. rewrite in_map_iff. split.
    + intros [t [Hc Ht]]. apply filter_In in Ht. destruct Ht as [Ht Hy].
      exists (base t). split; [now apply totals_In_raw|].
      split; [exact Hc | now apply Z.eqb_eq in Hy].
    + intros [r [Hr [Hc Hy]]].
      destruct (totals_have_every_key raw r Hr) as [t [Ht Hk]].
      injection Hk as Hkc Hky. exists t. split; [congruence|].
      apply filter_In. split; [exact Ht|]. apply Z.eqb_eq. congruence.
  - rewrite total_row_group, group_of_totals. split.
    + intros H.
      destruct (filter (in_group (country_selected sel, year_selected sel)) raw)
        as [|r rs] eqn:F; [discriminate H|].
      assert (Hin : In r (filter (in_group (country_selected sel,
                                           year_selected sel)) raw))
        by (rewrite F; now left).
      apply filter_In in Hin. destruct Hin as [Hin Hk]. exists r.
      split; [exact Hin|]. apply key_eqb_eq in Hk. now symmetry.
    + intros Hex. destruct (group_nonempty _ raw Hex) as [r [rs F]].
      now rewrite F.
Qed.

(** ** Trends (lines 185-222) *)




Section ByKey.
Context {K : Type} (eqb : K -> K -> bool) (keyof : TRow -> K) (f : TRow -> Z).
Hypothesis eqb_eq : forall x y, eqb x y = true <-> x = y.


End ByKey.


(** ** Top 10 (lines 238-245) *)




Lemma groupby_parent_sum_names (l : list TRow) :
  map fst (groupby_parent_sum l) = sort_by String.leb (companies_present l).
Proof. unfold groupby_parent_sum. rewrite map_map. simpl. apply map_id. Qed.

Lemma ranking_names_perm (l : list TRow) :
  Permutation (map fst (sort_by ratio_geb (groupby_parent_sum l)))
              (companies_present l).
Proof.
  eapply Permutation_trans; [apply Permutation_map, sort_by_perm|].
  rewrite groupby_parent_sum_names. apply sort_by_perm.
Qed.

(** No parent company is ranked twice, and when the year has at most 10
    distinct parent companies the ranking shows all of them. *)
Theorem top10_names (sel : Selection) (df : list TRow) :
  NoDup (map fst (top10 sel df))
  /\ ((List.length (companies_present (companies_y sel df)) <= 10)%nat ->
      Permutation (map fst (top10 sel df))
                  (companies_present (companies_y sel df))).
Proof.
  unfold top10, top10_rows. split.
  - rewrite <- firstn_map.
    set (names := map fst (sort_by ratio_geb
                             (groupby_parent_sum (companies_y sel df)))).
    assert (Hnd : NoDup names).
    { eapply Permutation_NoDup;
        [apply Permutation_sym, ranking_names_perm|].
      apply unique_NoDup, String.eqb_eq. }
    rewrite <- (firstn_skipn 10 names) in Hnd.
    exact (NoDup_app_remove_r _ _ Hnd).
  - intros Hlen. rewrite firstn_all2; [apply ranking_names_perm|].
    now rewrite sort_by_length, groupby_parent_sum_length.
Qed.

(** ** Composition of one company against all companies *)



(** ** Schema check (lines 36-43) *)

(** Only the presence of the required names counts: the order of the
    columns, repeated names and further columns change nothing, and the
    check passes exactly when every required name is a column. *)
Theorem missing_depends_on_required_names (cols cols' : list string) :
  ((forall c, In c required -> (In c cols <-> In c cols')) ->
   missing cols = missing cols')
  /\ (missing cols = [] <-> forall c, In c required -> In c cols).
Proof.
  split.
  - intros H. unfold missing. apply filter_ext_in. intros c Hc. f_equal.
    specialize (H c Hc). rewrite <- !mem_In in H.
    destruct H as [H1 H2].
    destruct (mem c cols), (mem c cols'); try reflexivity.
    + discriminate (H1 eq_refl).
    + discriminate (H2 eq_refl).
  - split.
    + intros Hm c Hc. destruct (mem c cols) eqn:E; [now apply mem_In|].
      assert (Hin : In c (missing cols)).
      { apply missing_spec. split; [exact Hc|]. intros Hin.
        apply mem_In in Hin. congruence. }
      rewrite Hm in Hin. destruct Hin.
    + intros H. destruct (missing cols) as [|c cs] eqn:E; [reflexivity|].
      assert (Hin : In c (missing cols)) by (rewrite E; now left).
      apply missing_spec in Hin. destruct Hin as [Hr Hn]. elim Hn. now apply H.
Qed.

(** ** The whole run and the copies it makes *)

(** With every required column present the run draws all six sections,
    each from the classified input table, and only adds frames to the
    store; the frame that was read stays as it was read. *)
Theorem script_renders_all_sections (raw : RawTable) (sel : Selection)
  (h : Store) :
  (forall c, In c required -> In c (columns raw)) ->
  exists ext,
    script raw sel h
    = (Rendered (map (fun op => query op sel (classify (records raw))) all_ops),
       h ++ Raw (records raw) :: ext).
Proof.
  intros Hcols.
  assert (Hm : missing (columns raw) = [])
    by now apply (proj2 (missing_depends_on_required_names (columns raw) [])).
  unfold script, bind, alloc, ret. rewrite Hm. cbn [is_empty].
  destruct (classifier_run (records raw) (h ++ [Raw (records raw)])
              (List.length h)) as (e & ext1 & E1 & Hh).
  { rewrite nth_error_app2 by lia. now rewrite Nat.sub_diag. }
  rewrite E1.
  destruct (dashboard_spec (classify (records raw)) e _ sel Hh) as [ext2 E2].
  rewrite E2. exists (ext1 ++ ext2).
  f_equal. rewrite <- !app_assoc. reflexivity.
Qed.

(** The column [custom_hover] is written on the year's copy of the total
    rows only: [totals] does not get it, [total_row], copied before the
    assignment, does not have it, and the copy taken afterwards for the
    marker has it. *)
Theorem custom_hover_stays_on_the_copy (df : list TRow) (e : Env) (h : Store)
  (sel : Selection) :
  holds_classified df e h ->
  let r1 := views sel e h in
  let r2 := map_section sel (fst r1) (snd r1) in
  nth_error (snd r2) (v_totals e) = Some (Table (totals df) None)
  /\ nth_error (snd r2) (v_totals_y (fst r1))
     = Some (Table (totals_y sel df) (Some (map hover_of (totals_y sel df))))
  /\ nth_error (snd r2) (v_total_row (fst r1))
     = Some (Table (total_row sel df) None)
  /\ nth_error (snd r2) (List.length (snd r1))
     = Some (Table (total_row sel df)
                   (Some (map hover_of (total_row sel df)))).
Proof.
  intros (H1 & H2 & H3).
  assert (Hv : views sel e (h ++ [])
               = (mkViews (List.length h + 0)%nat (List.length h + 1)%nat
                          (List.length h + 2)%nat (List.length h + 3)%nat,
                  h ++ [Table (totals_y sel df) None;
                        Table (total_row sel df) None;
                        Table (companies_y sel df) None;
                        Table (companies_yc sel df) None])).
  { unfold_script. store_run. reflexivity. }
  rewrite app_nil_r in Hv. cbv zeta. rewrite Hv. cbn [fst snd].
  unfold_script. cbn [v_totals_y v_total_row]. store_run.
  rewrite mask_column_hover. cbn [fst snd].
  rewrite length_app. cbn [List.length].
  assert (Hlt : (v_totals e < List.length h)%nat)
    by (apply nth_error_Some; congruence).
  split; [rewrite nth_error_app1 by exact Hlt; exact H2|].
  repeat split; rewrite nth_error_app2 by lia;
    match goal with
    | |- nth_error _ ?n = _ =>
        first [ replace n with 0%nat by lia
              | replace n with 1%nat by lia
              | replace n with 4%nat by lia ]
    end; reflexivity.
Qed.

(** ** The further properties at sample tables *)

Lemma composition_needs_company_rows_witness :
  comp_vals (with_parent "Acme" sel_A_2020) (classify table_two_years) = None.
Proof.
  apply (proj2 (proj2 (composition_needs_company_rows table_two_years
                         sel_A_2020))).
  simpl. lia.
Defined.

Lemma composition_of_absent_company_witness :
  comp_vals (with_parent "Nobody" sel_A_2020) (classify table_null_parent)
  = None.
Proof.
  apply composition_of_absent_company.
  - discriminate.
  - intros [H|[]]. discriminate H.
Defined.



Lemma top10_names_witness :
  Permutation (map fst (top10 sel_A_2020 (classify table_null_parent)))
              (companies_present
                 (companies_y sel_A_2020 (classify table_null_parent))).
Proof.
  apply (proj2 (top10_names sel_A_2020 (classify table_null_parent))).
  simpl. lia.
Defined.


Lemma missing_depends_on_required_names_witness :
  missing (rev required) = missing required.
Proof.
  apply (proj1 (missing_depends_on_required_names (rev required) required)).
  intros c _. symmetry. apply in_rev.
Defined.

Lemma script_renders_all_sections_witness :
  exists ext,
    script table_complete sel_A_2020 []
    = (Rendered (map (fun op => query op sel_A_2020
                                      (classify (records table_complete)))
                     all_ops),
       [] ++ Raw (records table_complete) :: ext).
Proof.
  apply script_renders_all_sections. intros c Hc. exact Hc.
Defined.

Lemma custom_hover_stays_on_the_copy_witness :
  nth_error
    (snd (map_section sel_A_2020
            (fst (views sel_A_2020 sample_env sample_classified))
            (snd (views sel_A_2020 sample_env sample_classified))))
    (v_totals sample_env)
  = Some (Table (totals (classify table_null_parent)) None).
Proof.
  assert (H : holds_classified (classify table_null_parent) sample_env
                               sample_classified).
  { repeat split. }
  exact (proj1 (custom_hover_stays_on_the_copy _ _ _ sel_A_2020 H)).
Defined.
